(** * Map poster generator: classification, layering and labels

    A shallow embedding of [generate_poster.py]: the theme catalogue and
    [get_road_style], the layer compositor of [render_poster] (water, parks,
    the six road buckets and the remaining roads), the label placement and the
    coordinate text, and the optional fetches of [fetch_map_data].

    Python values are modelled as follows.
    - [float] is IEEE binary64, Rocq's primitive [float]; a decimal literal
      denotes the nearest double on both sides.
    - [str] is [string] (for the degree sign, its UTF-8 bytes).
    - a [dict] with string keys is a [gmap string _]; [set(road_order)] is a
      [gset string].
    - an exception is a value of [exn] carried by [Err]; the drawing calls
      run in a state-and-error monad over the list of calls issued so far.

    Left out: the [print] calls and the parsing of the command line; [main]
    starts from the parsed arguments. The graph stands for the edge frame
    OSMnx makes of it, and the string methods are modelled on ASCII text. *)

From Stdlib Require Import ZArith Floats Ascii String DecimalString.
From stdpp Require Import gmap strings list fin_maps.

Set Warnings "-inexact-float".
Local Open Scope string_scope.

(** ** Exceptions and results *)

Inductive exn : Type :=
| IndexError
| KeyError (k : string)
| ProviderError
| BackendError.

Inductive result (A : Type) : Type :=
| Ok (a : A)
| Err (e : exn).
Arguments Ok {A} a.
Arguments Err {A} e.

Definition rbind {A B} (r : result A) (k : A -> result B) : result B :=
  match r with
  | Ok a => k a
  | Err e => Err e
  end.

(** ** The highway tag of an edge

    OSMnx stores in the [highway] column a string, a list of strings (edges
    merged by simplification), or NaN when the tag is missing. *)

Inductive tag : Type :=
| TStr (s : string)
| TList (l : list string)
| TOther.

(** ** The theme *)

Record theme : Type := {
  theme_background : string;
  theme_water : string;
  theme_parks : string;
  theme_roads : gmap string string;
  theme_road_widths : gmap string float;
  theme_text : string;
  theme_text_shadow : string
}.

Definition THEME : theme := {|
  theme_background := "#0d1b2a";
  theme_water := "#1b4965";
  theme_parks := "#1e3a2f";
  theme_roads := list_to_map [
    ("motorway", "#00d4ff");
    ("trunk", "#00c4ec");
    ("primary", "#00b4d8");
    ("secondary", "#0096c7");
    ("tertiary", "#0077b6");
    ("residential", "#023e8a");
    ("default", "#014f86")];
  theme_road_widths := list_to_map [
    ("motorway", 2.5%float);
    ("trunk", 2.0%float);
    ("primary", 1.5%float);
    ("secondary", 1.2%float);
    ("tertiary", 0.8%float);
    ("residential", 0.3%float);
    ("default", 0.2%float)];
  theme_text := "#e0fbfc";
  theme_text_shadow := "#1b4965"
|}.

(** [d[k]]: a missing key raises [KeyError]. *)
Definition subscript {V} (d : gmap string V) (k : string) : result V :=
  match d !! k with
  | Some v => Ok v
  | None => Err (KeyError k)
  end.

(** [d.get(k, dflt)] for a key that is a string ([Some s]) or a hashable
    value that is no string ([None]: equal to no key of [d]). *)
Definition dict_get {V} (d : gmap string V) (k : option string) (dflt : V) : V :=
  match k with
  | Some s => default dflt (d !! s)
  | None => dflt
  end.

(** ** [get_road_style] *)

(** Lines 39-40: a list is replaced by its element 0; [[][0]] raises. *)
Definition resolve_tag (highway_type : tag) : result (option string) :=
  match highway_type with
  | TList l =>
      match l with
      | x :: _ => Ok (Some x)
      | [] => Err IndexError
      end
  | TStr s => Ok (Some s)
  | TOther => Ok None
  end.

Definition get_road_style (highway_type : tag) : result (string * float) :=
  rbind (resolve_tag highway_type) (fun highway_type =>
  rbind (subscript (theme_roads THEME) "default") (fun dcolor =>
  let color := dict_get (theme_roads THEME) highway_type dcolor in
  rbind (subscript (theme_road_widths THEME) "default") (fun dwidth =>
  let width := dict_get (theme_road_widths THEME) highway_type dwidth in
  Ok (color, width)))).

(** ** Text of a float: [f"{x:.4f}"]

    The double is read back exactly ([Prim2SF]: sign, mantissa, binary
    exponent) and rounded to the nearest multiple of 1/10000, a tie going to
    the even neighbour, as CPython's correctly rounded formatting does. *)

Definition round_half_even (num den : Z) : Z :=
  let q := (num / den)%Z in
  let r := (num mod den)%Z in
  match (2 * r ?= den)%Z with
  | Lt => q
  | Gt => (q + 1)%Z
  | Eq => if Z.even q then q else (q + 1)%Z
  end.

(** The integer nearest to [m * 2^e * 10^4]. *)
Definition scaled4 (m : positive) (e : Z) : Z :=
  if (0 <=? e)%Z then (Z.pos m * 2 ^ e * 10000)%Z
  else round_half_even (Z.pos m * 10000) (2 ^ (- e)).

Definition digit (d : Z) : string :=
  String (Ascii.ascii_of_nat (48 + Z.to_nat d)) EmptyString.

Definition decimal (n : Z) : string :=
  NilZero.string_of_uint (N.to_uint (Z.to_N n)).

Definition fraction4 (n : Z) : string :=
  digit (n / 1000 mod 10) ++ digit (n / 100 mod 10)
  ++ digit (n / 10 mod 10) ++ digit (n mod 10).

Definition format_4f (x : float) : string :=
  match Prim2SF x with
  | S754_nan => "nan"
  | S754_infinity s => if s then "-inf" else "inf"
  | S754_zero s => (if s then "-" else "") ++ "0.0000"
  | S754_finite s m e =>
      let n := scaled4 m e in
      (if s then "-" else "") ++ decimal (n / 10000) ++ "." ++ fraction4 (n mod 10000)
  end.

(** Lines 170-172 of [render_poster]. *)
Definition coord_text (coords : float * float) : string :=
  let lat_dir := if (0 <=? fst coords)%float then "N" else "S" in
  let lon_dir := if (snd coords <? 0)%float then "W" else "E" in
  format_4f (abs (fst coords)) ++ "°" ++ lat_dir ++ "  "
  ++ format_4f (abs (snd coords)) ++ "°" ++ lon_dir.

(** ** Road features and the bucket masks *)

(** A row of the edge frame: its index and its [highway] value. *)
Record edge : Type := {
  edge_index : nat;
  highway : tag
}.

Definition road_order : list string :=
  ["residential"; "tertiary"; "secondary"; "primary"; "trunk"; "motorway"].

(** The mask of the loop body (lines 127-130), as a function of the tag. *)
Definition mask_type (road_type : string) (x : tag) : bool :=
  match x with
  | TStr s => bool_decide (s = road_type)
  | TList l => bool_decide (road_type ∈ l)
  | TOther => false
  end.

Definition plotted_types : gset string := list_to_set road_order.

(** The mask of the remaining roads (lines 139-142). *)
Definition mask_remaining (x : tag) : bool :=
  match x with
  | TStr s => bool_decide (s ∉ plotted_types)
  | TList l => negb (existsb (fun t => bool_decide (t ∈ plotted_types)) l)
  | TOther => true
  end.

(** [edges[mask]]: the rows whose mask is true, in the frame's order. *)
Definition subset (road_type : string) (edges : list edge) : list edge :=
  List.filter (fun e => mask_type road_type (highway e)) edges.

Definition remaining (edges : list edge) : list edge :=
  List.filter (fun e => mask_remaining (highway e)) edges.

(** ** The drawing backend

    What [render_poster] does to matplotlib is the list of calls it issues.
    A call may raise, and the axis limits depend on what was drawn: both are
    given by the backend, as functions of the calls issued before. *)

(** A polygon of the water or park frame, by its index. *)
Definition area : Type := nat.

Inductive frame : Type :=
| Areas (l : list area)
| Edges (l : list edge).

Record text_kw : Type := {
  fontsize : Z;
  fontweight : option string;
  color : string;
  ha : string;
  va : string;
  fontfamily : string;
  text_alpha : option float
}.

Inductive call : Type :=
| Subplots (figsize : Z * Z) (facecolor : string)
| SetFacecolor (c : string)
| SetAxisOff
| Plot (f : frame) (c : string) (linewidth : option float) (alpha : float)
| Text (x y : float) (s : string) (kw : text_kw)
| TightLayout (pad : Z)
| Savefig (output_path : string) (dpi : Z) (facecolor edgecolor bbox_inches : string)
    (pad_inches : float)
| Close.

Record backend : Type := {
  raises : list call -> call -> bool;
  get_xlim : list call -> float * float;
  get_ylim : list call -> float * float
}.

(** A computation over the calls issued so far that returns or raises. *)
Definition M (A : Type) : Type := list call -> list call * result A.

Definition ret {A} (a : A) : M A := fun tr => (tr, Ok a).

Definition bind {A B} (m : M A) (k : A -> M B) : M B :=
  fun tr =>
    match m tr with
    | (tr', Ok a) => k a tr'
    | (tr', Err e) => (tr', Err e)
    end.

Definition lift {A} (r : result A) : M A := fun tr => (tr, r).

(** [try: m except Exception: pass] *)
Definition try_pass (m : M unit) : M unit :=
  fun tr =>
    match m tr with
    | (tr', Ok a) => (tr', Ok a)
    | (tr', Err _) => (tr', Ok tt)
    end.

Declare Scope render_scope.
Delimit Scope render_scope with render.
Notation "'let*' x ':=' m 'in' k" := (bind m (fun x => k))
  (at level 10, x pattern, m at level 100, k at level 200) : render_scope.
Notation "m ';;' k" := (bind m (fun _ => k))
  (at level 100, k at level 200, right associativity) : render_scope.

(** [str.upper], on ASCII letters; other bytes are kept. *)
Definition upper_ascii (c : ascii) : ascii :=
  let n := nat_of_ascii c in
  if (97 <=? n)%nat && (n <=? 122)%nat then ascii_of_nat (n - 32) else c.

Fixpoint upper (s : string) : string :=
  match s with
  | EmptyString => EmptyString
  | String c r => String (upper_ascii c) (upper r)
  end.

(** The graph, by the edge frame [ox.graph_to_gdfs(G, nodes=False)] makes
    of it. *)
Record graph : Type := { graph_edges : list edge }.

Definition graph_to_gdfs (G : graph) : list edge := graph_edges G.

(** The three [ax.text] calls of lines 157-196, for limits [xlim], [ylim]. *)
Definition label_calls (xlim ylim : float * float) (city_name state_or_country : string)
    (coords : float * float) : list call :=
  [ Text ((fst xlim + snd xlim) / 2)%float
         (fst ylim + (snd ylim - fst ylim) * 0.06)%float
         (upper city_name)
         {| fontsize := 72; fontweight := Some "bold"; color := theme_text THEME;
            ha := "center"; va := "bottom"; fontfamily := "sans-serif";
            text_alpha := None |};
    Text ((fst xlim + snd xlim) / 2)%float
         (fst ylim + (snd ylim - fst ylim) * 0.03)%float
         (coord_text coords)
         {| fontsize := 24; fontweight := None; color := theme_text THEME;
            ha := "center"; va := "bottom"; fontfamily := "sans-serif";
            text_alpha := Some 0.7%float |};
    Text ((fst xlim + snd xlim) / 2)%float
         (snd ylim - (snd ylim - fst ylim) * 0.03)%float
         (upper state_or_country)
         {| fontsize := 28; fontweight := None; color := theme_text THEME;
            ha := "center"; va := "top"; fontfamily := "sans-serif";
            text_alpha := Some 0.6%float |} ].

Section Render.

Variable b : backend.

Local Open Scope render_scope.

(** Issue a call: it is recorded, then it returns or raises. *)
Definition issue (c : call) : M unit :=
  fun tr => ((tr ++ [c])%list, if raises b tr c then Err BackendError else Ok tt).

Fixpoint issue_all (cs : list call) : M unit :=
  match cs with
  | [] => ret tt
  | c :: cs => issue c ;; issue_all cs
  end.

Definition limits : M ((float * float) * (float * float)) :=
  fun tr => (tr, Ok (get_xlim b tr, get_ylim b tr)).

(** Lines 107-112. *)
Definition draw_water (water : option (list area)) : M unit :=
  match water with
  | Some w =>
      if (0 <? length w)%nat
      then try_pass (issue (Plot (Areas w) (theme_water THEME) None 0.8%float))
      else ret tt
  | None => ret tt
  end.

(** Lines 115-120. *)
Definition draw_parks (parks : option (list area)) : M unit :=
  match parks with
  | Some p =>
      if (0 <? length p)%nat
      then try_pass (issue (Plot (Areas p) (theme_parks THEME) None 0.6%float))
      else ret tt
  | None => ret tt
  end.

(** The loop of lines 126-135 over [types]. *)
Fixpoint draw_roads (edges : list edge) (types : list string) : M unit :=
  match types with
  | [] => ret tt
  | road_type :: rest =>
      (if (0 <? length (subset road_type edges))%nat
       then
         let* (c, width) := lift (get_road_style (TStr road_type)) in
         issue (Plot (Edges (subset road_type edges)) c (Some width) 0.9%float)
       else ret tt) ;;
      draw_roads edges rest
  end.

(** Lines 138-146. *)
Definition draw_remaining (edges : list edge) : M unit :=
  if (0 <? length (remaining edges))%nat
  then
    let* dcolor := lift (subscript (theme_roads THEME) "default") in
    let* dwidth := lift (subscript (theme_road_widths THEME) "default") in
    issue (Plot (Edges (remaining edges)) dcolor (Some dwidth) 0.7%float)
  else ret tt.

(** Lines 149-196. *)
Definition add_labels (show_labels : bool) (city_name state_or_country : string)
    (coords : float * float) : M unit :=
  if show_labels
  then
    let* (xlim, ylim) := limits in
    issue_all (label_calls xlim ylim city_name state_or_country coords)
  else ret tt.

Definition render_poster (G : graph) (water parks : option (list area))
    (output_path : string) (dpi : Z) (city_name state_or_country : string)
    (coords : float * float) (show_labels : bool) : M unit :=
  issue (Subplots (18, 24)%Z (theme_background THEME)) ;;
  issue (SetFacecolor (theme_background THEME)) ;;
  issue SetAxisOff ;;
  let edges := graph_to_gdfs G in
  draw_water water ;;
  draw_parks parks ;;
  draw_roads edges road_order ;;
  draw_remaining edges ;;
  add_labels show_labels city_name state_or_country coords ;;
  issue (TightLayout 1) ;;
  issue (Savefig output_path dpi (theme_background THEME) "none" "tight" 0.5%float) ;;
  issue Close.

End Render.

(** ** [fetch_map_data] *)

(** The OSMnx calls, each returning a frame or raising. *)
Record provider : Type := {
  graph_from_point : float * float -> Z -> string -> result graph;
  features_from_point : float * float -> string * string -> Z -> result (list area)
}.

Definition fetch_map_data (p : provider) (center : float * float) (radius_km : Z)
    : result (graph * option (list area) * option (list area)) :=
  rbind (graph_from_point p center (radius_km * 1000) "all") (fun G =>
  let water :=
    match features_from_point p center ("natural", "water") (radius_km * 1000) with
    | Ok w => Some w
    | Err _ => None
    end in
  let parks :=
    match features_from_point p center ("leisure", "park") (radius_km * 1000) with
    | Ok pk => Some pk
    | Err _ => None
    end in
  Ok (G, water, parks)).

(** ** Bucket sizes *)

Local Open Scope list_scope.

(** The named buckets a tag falls in. *)
Definition named_buckets (x : tag) : list string :=
  List.filter (fun road_type => mask_type road_type x) road_order.

(** The number of draws of a feature: one per bucket it is in. *)
Definition draws_of (x : tag) : nat :=
  length (named_buckets x) + (if mask_remaining x then 1 else 0).

Definition bucket_sizes (edges : list edge) : list nat :=
  map (fun road_type => length (subset road_type edges)) road_order
  ++ [length (remaining edges)].

Definition total_size (edges : list edge) : nat := list_sum (bucket_sizes edges).

(** ** The calls of an uninterrupted run

    What each block of [render_poster] issues when no call raises past it. *)

Definition water_calls (water : option (list area)) : list call :=
  match water with
  | Some w =>
      if (0 <? length w)%nat
      then [Plot (Areas w) (theme_water THEME) None 0.8%float]
      else []
  | None => []
  end.

Definition parks_calls (parks : option (list area)) : list call :=
  match parks with
  | Some p =>
      if (0 <? length p)%nat
      then [Plot (Areas p) (theme_parks THEME) None 0.6%float]
      else []
  | None => []
  end.

Definition road_call (edges : list edge) (road_type : string) : list call :=
  if (0 <? length (subset road_type edges))%nat
  then [Plot (Edges (subset road_type edges))
             (default "#014f86"%string (theme_roads THEME !! road_type))
             (Some (default 0.2%float (theme_road_widths THEME !! road_type)))
             0.9%float]
  else [].

Definition remaining_calls (edges : list edge) : list call :=
  if (0 <? length (remaining edges))%nat
  then [Plot (Edges (remaining edges)) "#014f86"%string (Some 0.2%float) 0.7%float]
  else [].

Definition layer_calls (G : graph) (water parks : option (list area)) : list call :=
  [Subplots (18, 24)%Z (theme_background THEME);
   SetFacecolor (theme_background THEME);
   SetAxisOff]
  ++ water_calls water
  ++ parks_calls parks
  ++ flat_map (road_call (graph_to_gdfs G)) road_order
  ++ remaining_calls (graph_to_gdfs G).

(** The labels, placed in the limits the layers leave, and the saving. *)
Definition closing_calls (b : backend) (drawn : list call) (output_path : string)
    (dpi : Z) (city_name state_or_country : string) (coords : float * float)
    (show_labels : bool) : list call :=
  (if show_labels
   then label_calls (get_xlim b drawn) (get_ylim b drawn) city_name state_or_country coords
   else [])
  ++ [TightLayout 1;
      Savefig output_path dpi (theme_background THEME) "none"%string "tight"%string
        0.5%float;
      Close].

Definition is_plot (c : call) : bool :=
  match c with
  | Plot _ _ _ _ => true
  | _ => false
  end.

Definition is_area_plot (c : call) : bool :=
  match c with
  | Plot (Areas _) _ _ _ => true
  | _ => false
  end.


(** [m], started after [tr], issues the calls [L] in order, all of them when
    it returns and some first ones when it raises. *)
Definition emits (m : M unit) (tr : list call) (L : list call) : Prop :=
  exists p,
    fst (m tr) = tr ++ p
    /\ (exists rest, L = p ++ rest)
    /\ (snd (m tr) = Ok tt -> p = L).


(** A backend on which nothing is interrupted, with limits (0,100), (0,200). *)
Definition quiet_backend : backend := {|
  raises := fun _ _ => false;
  get_xlim := fun _ => (0%float, 100%float);
  get_ylim := fun _ => (0%float, 200%float)
|}.


(** A provider whose water and park requests fail. *)
Definition roads_only_provider (G : graph) : provider := {|
  graph_from_point := fun _ _ _ => Ok G;
  features_from_point := fun _ _ _ => Err ProviderError
|}.

(** The five segments of the end-to-end scenario. *)
Definition scenario_graph : graph := {|
  graph_edges :=
    [ {| edge_index := 0; highway := TStr "residential" |};
      {| edge_index := 1; highway := TStr "residential" |};
      {| edge_index := 2; highway := TStr "primary" |};
      {| edge_index := 3; highway := TStr "motorway" |};
      {| edge_index := 4; highway := TStr "track" |} ]
|}.

(** ** [geocode_city] and [main]

    String methods are modelled on ASCII text: [str.strip] removes the ASCII
    white space of [str.isspace], [str.lower] maps the letters A-Z. *)

Local Open Scope string_scope.

Inductive failure : Type :=
| ValueError (msg : string)
| Uncaught (e : exn).

Inductive outcome : Type :=
| Done
| Raised (f : failure).

(** Lines 48-56: whatever [ox.geocode] raises becomes a [ValueError]. *)
Definition geocode_city (geocode : string -> result (float * float))
    (city_name : string) : failure + (float * float) :=
  match geocode city_name with
  | Ok location => inr location
  | Err _ => inl (ValueError ("Could not find location: " ++ city_name))
  end.

Definition is_space (c : ascii) : bool :=
  let n := nat_of_ascii c in
  ((9 <=? n)%nat && (n <=? 13)%nat) || ((28 <=? n)%nat && (n <=? 32)%nat).

Fixpoint lstrip (s : string) : string :=
  match s with
  | EmptyString => EmptyString
  | String c r => if is_space c then lstrip r else s
  end.

Fixpoint rstrip (s : string) : string :=
  match s with
  | EmptyString => EmptyString
  | String c r =>
      match rstrip r with
      | EmptyString => if is_space c then EmptyString else String c EmptyString
      | r' => String c r'
      end
  end.

Definition strip (s : string) : string := rstrip (lstrip s).

(** [s.split(',')]: the pieces between the commas, at least one. *)
Fixpoint split_comma (s : string) : list string :=
  match s with
  | EmptyString => [EmptyString]
  | String c r =>
      if Ascii.eqb c ","%char then EmptyString :: split_comma r
      else
        match split_comma r with
        | p :: ps => String c p :: ps
        | [] => [String c EmptyString]
        end
  end.

Definition lower_ascii (c : ascii) : ascii :=
  let n := nat_of_ascii c in
  if (65 <=? n)%nat && (n <=? 90)%nat then ascii_of_nat (n + 32) else c.

Fixpoint lower (s : string) : string :=
  match s with
  | EmptyString => EmptyString
  | String c r => String (lower_ascii c) (lower r)
  end.

(** [s.replace(old, new)] for a one-character [old]. *)
Fixpoint replace_char (old : ascii) (new : string) (s : string) : string :=
  match s with
  | EmptyString => EmptyString
  | String c r =>
      if Ascii.eqb c old then new ++ replace_char old new r
      else String c (replace_char old new r)
  end.

(** [l[i]] on a list. *)
Definition list_subscript {A} (l : list A) (i : nat) : result A :=
  match nth_error l i with
  | Some a => Ok a
  | None => Err IndexError
  end.

(** The parsed command line. *)
Record args : Type := {
  args_city : string;
  args_label : option string;
  args_region : option string;
  args_radius : Z;
  args_output : option string;
  args_dpi : Z;
  args_no_labels : bool
}.

(** An option given and not empty: what [x or y] keeps of [x]. *)
Definition truthy (x : option string) : option string :=
  match x with
  | Some (String c r) => Some (String c r)
  | _ => None
  end.

(** Lines 252-254. *)
Definition labels_of (a : args) : result (string * string) :=
  let parts := map strip (split_comma (args_city a)) in
  rbind (match truthy (args_label a) with
         | Some l => Ok l
         | None => list_subscript parts 0
         end) (fun city_label =>
  rbind (match truthy (args_region a) with
         | Some r => Ok r
         | None => if (1 <? length parts)%nat then list_subscript parts 1 else Ok ""
         end) (fun region_label =>
  Ok (city_label, region_label))).

(** Lines 257-259. *)
Definition output_of (a : args) (city_label : string) : string :=
  match args_output a with
  | Some o => o
  | None =>
      let safe_name :=
        replace_char "039"%char "" (replace_char " "%char "_" (lower city_label)) in
      safe_name ++ "_poster.png"
  end.

(** Lines 249-281, on the calls issued to the backend. *)
Definition main (geocode : string -> result (float * float)) (p : provider)
    (b : backend) (a : args) : list call * outcome :=
  match labels_of a with
  | Err e => ([], Raised (Uncaught e))
  | Ok (city_label, region_label) =>
      let output := output_of a city_label in
      match geocode_city geocode (args_city a) with
      | inl f => ([], Raised f)
      | inr coords =>
          match fetch_map_data p coords (args_radius a) with
          | Err e => ([], Raised (Uncaught e))
          | Ok (G, water, parks) =>
              match render_poster b G water parks output (args_dpi a) city_label
                      region_label coords (negb (args_no_labels a)) [] with
              | (tr, Ok _) => (tr, Done)
              | (tr, Err e) => (tr, Raised (Uncaught e))
              end
          end
      end
  end.

(** ** Predicates on calls and text *)

Definition is_text (c : call) : bool :=
  match c with
  | Text _ _ _ _ => true
  | _ => false
  end.

Definition is_savefig (c : call) : bool :=
  match c with
  | Savefig _ _ _ _ _ _ => true
  | _ => false
  end.

Definition frame_size (f : frame) : nat :=
  match f with
  | Areas l => length l
  | Edges l => length l
  end.

Fixpoint has_char (c : ascii) (s : string) : bool :=
  match s with
  | EmptyString => false
  | String d r => Ascii.eqb d c || has_char c r
  end.




Fixpoint increasing (l : list float) : bool :=
  match l with
  | x :: ((y :: _) as r) => (x <? y)%float && increasing r
  | _ => true
  end.

Local Open Scope list_scope.



(** A command line, and a geocoder that knows one place. *)
Definition sydney_args : args := {|
  args_city := "Sydney, Australia";
  args_label := None;
  args_region := None;
  args_radius := 20;
  args_output := None;
  args_dpi := 150;
  args_no_labels := false
|}.

Definition sydney_geocode (name : string) : result (float * float) :=
  if String.eqb name "Sydney, Australia"
  then Ok ((-33.8688)%float, 151.2093%float)
  else Err ProviderError.

(** * Properties *)

(** ** Evaluations *)

Example style_motorway :
  get_road_style (TStr "motorway") = Ok ("#00d4ff", 2.5%float).
Proof. vm_compute. reflexivity. Qed.

Example style_track :
  get_road_style (TList ["track"; "motorway"]) = Ok ("#014f86", 0.2%float).
Proof. vm_compute. reflexivity. Qed.

Example format_4f_tie : format_4f 0.125%float = "0.1250".
Proof. vm_compute. reflexivity. Qed.

Example format_4f_up : format_4f 0.00005%float = "0.0001".
Proof. vm_compute. reflexivity. Qed.

Example format_4f_pad : format_4f 74.006%float = "74.0060".
Proof. vm_compute. reflexivity. Qed.

Example format_4f_big : format_4f 1e22%float = "10000000000000000000000.0000".
Proof. vm_compute. reflexivity. Qed.

Example format_4f_half_even : format_4f 0x1.8p-14%float = "0.0001".
Proof. vm_compute. reflexivity. Qed.

Example coord_text_sydney :
  coord_text ((-33.8688)%float, 151.2093%float) = "33.8688°S  151.2093°E".
Proof. vm_compute. reflexivity. Qed.

Example subset_two_buckets :
  let e := {| edge_index := 0; highway := TList ["residential"; "primary"] |} in
  subset "residential" [e] = [e] /\ subset "primary" [e] = [e] /\ remaining [e] = [].
Proof. vm_compute. auto. Qed.

Example remaining_track :
  let e := {| edge_index := 7; highway := TStr "track" |} in
  remaining [e] = [e].
Proof. vm_compute. auto. Qed.

Example total_size_scenario :
  total_size
    [ {| edge_index := 0; highway := TStr "residential" |};
      {| edge_index := 1; highway := TStr "residential" |};
      {| edge_index := 2; highway := TStr "primary" |};
      {| edge_index := 3; highway := TStr "motorway" |};
      {| edge_index := 4; highway := TStr "track" |} ] = 5.
Proof. vm_compute. reflexivity. Qed.


(** ** Masks *)

Lemma mask_type_true (c : string) (x : tag) :
  mask_type c x = true <->
  match x with
  | TStr s => s = c
  | TList l => In c l
  | TOther => False
  end.
Proof.
  destruct x as [s|l|]; simpl.
  - apply bool_decide_eq_true.
  - rewrite bool_decide_eq_true. apply list_elem_of_In.
  - split; [discriminate | tauto].
Qed.

Lemma plotted_types_In (s : string) : s ∈ plotted_types <-> In s road_order.
Proof.
  unfold plotted_types. rewrite elem_of_list_to_set. apply list_elem_of_In.
Qed.

Lemma mask_remaining_true (x : tag) :
  mask_remaining x = true <->
  match x with
  | TStr s => ~ In s road_order
  | TList l => forall t, In t l -> ~ In t road_order
  | TOther => True
  end.
Proof.
  destruct x as [s|l|]; simpl.
  - rewrite bool_decide_eq_true. now rewrite plotted_types_In.
  - rewrite negb_true_iff. split.
    + intros H t Ht Hin.
      assert (existsb (fun t => bool_decide (t ∈ plotted_types)) l = true) as Hex.
      { apply existsb_exists. exists t. split; [exact Ht|].
        apply bool_decide_eq_true, plotted_types_In, Hin. }
      congruence.
    + intros H. apply not_true_is_false. intros Hex.
      apply existsb_exists in Hex as (t & Ht & Hd).
      apply bool_decide_eq_true, plotted_types_In in Hd. exact (H t Ht Hd).
  - tauto.
Qed.

(** The remaining mask is the complement of the union of the six masks. *)
Lemma mask_remaining_complement (x : tag) :
  mask_remaining x = negb (existsb (fun c => mask_type c x) road_order).
Proof.
  apply eq_true_iff_eq. rewrite mask_remaining_true, negb_true_iff.
  rewrite <- not_true_iff_false, existsb_exists.
  split.
  - intros H (c & Hc & Hm). apply mask_type_true in Hm.
    destruct x as [s|l|]; [subst; tauto | exact (H c Hm Hc) | exact Hm].
  - intros H. destruct x as [s|l|]; [| |exact I].
    + intros Hs. apply H. exists s. split; [exact Hs|]. now apply mask_type_true.
    + intros t Ht Hin. apply H. exists t. split; [exact Hin|]. now apply mask_type_true.
Qed.

Lemma named_buckets_nil (x : tag) :
  named_buckets x = [] <-> mask_remaining x = true.
Proof.
  rewrite mask_remaining_complement, negb_true_iff. unfold named_buckets.
  induction road_order as [|c cs IH]; simpl; [tauto|].
  destruct (mask_type c x); simpl; [split; discriminate | exact IH].
Qed.

Lemma draws_of_pos (x : tag) : 1 <= draws_of x.
Proof.
  unfold draws_of. destruct (mask_remaining x) eqn:Hr; [lia|].
  destruct (named_buckets x) eqn:Hn; simpl; [|lia].
  apply named_buckets_nil in Hn. congruence.
Qed.

Lemma draws_of_single (x : tag) : length (named_buckets x) <= 1 -> draws_of x = 1.
Proof.
  unfold draws_of. intros Hle. destruct (mask_remaining x) eqn:Hr.
  - apply named_buckets_nil in Hr. rewrite Hr. reflexivity.
  - destruct (named_buckets x) eqn:Hn; simpl in *; [|lia].
    apply named_buckets_nil in Hn. congruence.
Qed.

Lemma named_buckets_str (s : string) : length (named_buckets (TStr s)) <= 1.
Proof.
  unfold named_buckets, road_order, mask_type. simpl.
  repeat case_bool_decide; subst; simpl; try lia; discriminate.
Qed.

Lemma named_buckets_other : named_buckets TOther = [].
Proof. reflexivity. Qed.

(** ** Counting the draws *)

Lemma In_subset (c : string) (edges : list edge) (e : edge) :
  In e (subset c edges) <-> In e edges /\ mask_type c (highway e) = true.
Proof. unfold subset. apply filter_In. Qed.

Lemma In_remaining (edges : list edge) (e : edge) :
  In e (remaining edges) <-> In e edges /\ mask_remaining (highway e) = true.
Proof. unfold remaining. apply filter_In. Qed.

Lemma list_sum_map_add {A} (g h : A -> nat) (l : list A) :
  list_sum (map (fun a => g a + h a) l) = list_sum (map g l) + list_sum (map h l).
Proof. induction l as [|a l IH]; simpl; [reflexivity | rewrite IH; lia]. Qed.

Lemma length_filter_indicator {A} (f : A -> bool) (l : list A) :
  length (List.filter f l) = list_sum (map (fun a => if f a then 1 else 0) l).
Proof.
  induction l as [|a l IH]; simpl; [reflexivity|].
  destruct (f a); simpl; rewrite IH; reflexivity.
Qed.

(** Summing bucket by bucket or feature by feature gives the same count. *)
Lemma sum_sizes_by_feature {A C} (f : C -> A -> bool) (cs : list C) (l : list A) :
  list_sum (map (fun c => length (List.filter (f c) l)) cs)
  = list_sum (map (fun a => length (List.filter (fun c => f c a) cs)) l).
Proof.
  induction l as [|a l IH]; simpl.
  - induction cs as [|c cs IHc]; simpl; [reflexivity | exact IHc].
  - rewrite <- IH, (length_filter_indicator (fun c => f c a) cs), <- list_sum_map_add.
    f_equal. apply map_ext. intros c. destruct (f c a); reflexivity.
Qed.

Lemma total_size_by_feature (edges : list edge) :
  total_size edges = list_sum (map (fun e => draws_of (highway e)) edges).
Proof.
  unfold total_size, bucket_sizes, draws_of, subset, remaining, named_buckets.
  rewrite list_sum_app, list_sum_map_add.
  rewrite (sum_sizes_by_feature (fun c e => mask_type c (highway e)) road_order edges).
  rewrite (length_filter_indicator (fun e => mask_remaining (highway e))).
  simpl. lia.
Qed.

Lemma list_sum_ge_length {A} (g : A -> nat) (l : list A) :
  (forall a, In a l -> 1 <= g a) -> length l <= list_sum (map g l).
Proof.
  induction l as [|a l IH]; simpl; intros H; [lia|].
  specialize (H a (or_introl eq_refl)) as Ha.
  specialize (IH (fun x Hx => H x (or_intror Hx))). lia.
Qed.

Lemma list_sum_eq_length {A} (g : A -> nat) (l : list A) :
  (forall a, In a l -> g a = 1) -> list_sum (map g l) = length l.
Proof.
  induction l as [|a l IH]; simpl; intros H; [reflexivity|].
  rewrite (H a (or_introl eq_refl)), (IH (fun x Hx => H x (or_intror Hx))). reflexivity.
Qed.

(** C1, as the code has it. The six named buckets and the remainder cover
    every road feature: each feature is in at least one bucket, the remainder
    shares no feature with a named bucket, and the bucket sizes add up to one
    per bucket each feature is in, hence to at least the number of features.
    When no tag holds two different canonical categories (so for string and
    missing tags), no feature is in two buckets and the sizes add up to the
    number of features. *)
Theorem buckets_cover (edges : list edge) :
  (forall e, In e edges ->
     In e (remaining edges) \/ exists c, In c road_order /\ In e (subset c edges))
  /\ (forall e c, In c road_order -> In e (subset c edges) -> ~ In e (remaining edges))
  /\ total_size edges = list_sum (map (fun e => draws_of (highway e)) edges)
  /\ length edges <= total_size edges
  /\ (forall s, length (named_buckets (TStr s)) <= 1)
  /\ length (named_buckets TOther) <= 1
  /\ ((forall e, In e edges -> length (named_buckets (highway e)) <= 1) ->
      total_size edges = length edges
      /\ forall e c c', In c road_order -> In c' road_order ->
           In e (subset c edges) -> In e (subset c' edges) -> c = c').
Proof.
  split; [|split; [|split; [|split; [|split; [|split]]]]].
  - intros e He. destruct (mask_remaining (highway e)) eqn:Hr.
    + left. apply In_remaining. auto.
    + right. rewrite mask_remaining_complement, negb_false_iff in Hr.
      apply existsb_exists in Hr as (c & Hc & Hm).
      exists c. split; [exact Hc|]. apply In_subset. auto.
  - intros e c Hc Hs Hr. apply In_subset in Hs as [_ Hm].
    apply In_remaining in Hr as [_ Hr].
    rewrite mask_remaining_complement, negb_true_iff in Hr.
    assert (existsb (fun c => mask_type c (highway e)) road_order = true) as Hex.
    { apply existsb_exists. exists c. auto. }
    congruence.
  - apply total_size_by_feature.
  - rewrite total_size_by_feature. apply list_sum_ge_length.
    intros e _. apply draws_of_pos.
  - apply named_buckets_str.
  - rewrite named_buckets_other. simpl. lia.
  - intros Hone. split.
    + rewrite total_size_by_feature. apply list_sum_eq_length.
      intros e He. apply draws_of_single, Hone, He.
    + intros e c c' Hc Hc' Hs Hs'.
      apply In_subset in Hs as [He Hm]. apply In_subset in Hs' as [_ Hm'].
      specialize (Hone e He). unfold named_buckets in Hone.
      revert Hc Hc' Hone. generalize road_order as cs.
      induction cs as [|d cs IH]; simpl; [tauto|].
      intros [->|Hc] [->|Hc']; try reflexivity.
      * rewrite Hm. simpl. intros Hone.
        assert (In c' (List.filter (fun r => mask_type r (highway e)) cs)) as Hin
          by (apply filter_In; auto).
        destruct (List.filter (fun r => mask_type r (highway e)) cs);
          [destruct Hin | simpl in Hone; lia].
      * rewrite Hm'. simpl. intros Hone.
        assert (In c (List.filter (fun r => mask_type r (highway e)) cs)) as Hin
          by (apply filter_In; auto).
        destruct (List.filter (fun r => mask_type r (highway e)) cs);
          [destruct Hin | simpl in Hone; lia].
      * intros Hone. apply IH; auto.
        destruct (mask_type d (highway e)); simpl in Hone; lia.
Qed.

(** The cover at the five segments of the end-to-end scenario. *)
Lemma buckets_cover_witness :
  total_size
    [ {| edge_index := 0; highway := TStr "residential" |};
      {| edge_index := 1; highway := TStr "residential" |};
      {| edge_index := 2; highway := TStr "primary" |};
      {| edge_index := 3; highway := TStr "motorway" |};
      {| edge_index := 4; highway := TStr "track" |} ] = 5.
Proof.
  refine (proj1 (proj2 (proj2 (proj2 (proj2 (proj2 (proj2 (buckets_cover _)))))) _)).
  intros e He. simpl in He.
  repeat (destruct He as [<-|He]; [apply named_buckets_str|]). destruct He.
Defined.

(** C1 as stated fails: a segment tagged [residential, primary] is in two
    named buckets, and the bucket sizes add up to 2 for 1 feature. *)
Lemma buckets_overlap :
  In {| edge_index := 0; highway := TList ["residential"; "primary"] |}
     (subset "residential"
        [ {| edge_index := 0; highway := TList ["residential"; "primary"] |} ])
  /\ In {| edge_index := 0; highway := TList ["residential"; "primary"] |}
        (subset "primary"
           [ {| edge_index := 0; highway := TList ["residential"; "primary"] |} ])
  /\ total_size [ {| edge_index := 0; highway := TList ["residential"; "primary"] |} ] = 2
  /\ length [ {| edge_index := 0; highway := TList ["residential"; "primary"] |} ] = 1.
Proof. vm_compute. auto. Qed.

(** ** Which bucket a feature is in *)

(** C2, as the code has it. A feature with a string tag is in the bucket of
    that very name, and in the remainder when the name is none of the six. A
    feature with a list tag is in the bucket of every canonical category that
    occurs anywhere in the list, and in the remainder exactly when no element
    is canonical. *)
Theorem bucket_membership (edges : list edge) (e : edge) (c : string) :
  (In e (subset c edges) <->
     In e edges /\
     match highway e with
     | TStr s => s = c
     | TList l => In c l
     | TOther => False
     end)
  /\ (In e (remaining edges) <->
        In e edges /\
        match highway e with
        | TStr s => ~ In s road_order
        | TList l => forall t, In t l -> ~ In t road_order
        | TOther => True
        end).
Proof.
  split.
  - rewrite In_subset, mask_type_true. reflexivity.
  - rewrite In_remaining, mask_remaining_true. reflexivity.
Qed.

(** C2 as stated fails: the first element of [bridge, motorway] is no
    canonical category, yet the segment is in the motorway bucket and not in
    the remainder; [motorway, primary] resolves to motorway, yet the segment
    is in the primary bucket too. *)
Lemma first_element_not_the_bucket :
  resolve_tag (TList ["bridge"; "motorway"]) = Ok (Some "bridge")
  /\ ~ In "bridge" road_order
  /\ remaining [ {| edge_index := 0; highway := TList ["bridge"; "motorway"] |} ] = []
  /\ subset "motorway" [ {| edge_index := 0; highway := TList ["bridge"; "motorway"] |} ]
     = [ {| edge_index := 0; highway := TList ["bridge"; "motorway"] |} ]
  /\ resolve_tag (TList ["motorway"; "primary"]) = Ok (Some "motorway")
  /\ subset "primary" [ {| edge_index := 1; highway := TList ["motorway"; "primary"] |} ]
     = [ {| edge_index := 1; highway := TList ["motorway"; "primary"] |} ].
Proof.
  split; [reflexivity|]. split.
  - unfold road_order. simpl. intros H.
    repeat (destruct H as [H|H]; [discriminate H|]). exact H.
  - vm_compute. auto.
Qed.

(** ** [get_road_style] *)

Lemma subscript_default_color : subscript (theme_roads THEME) "default" = Ok "#014f86".
Proof. vm_compute. reflexivity. Qed.

Lemma subscript_default_width :
  subscript (theme_road_widths THEME) "default" = Ok 0.2%float.
Proof. vm_compute. reflexivity. Qed.

Lemma get_road_style_str (s : string) :
  get_road_style (TStr s)
  = Ok (default "#014f86" (theme_roads THEME !! s),
        default 0.2%float (theme_road_widths THEME !! s)).
Proof.
  unfold get_road_style, resolve_tag, rbind.
  rewrite subscript_default_color, subscript_default_width. reflexivity.
Qed.

Lemma get_road_style_cons (x : string) (rest : list string) :
  get_road_style (TList (x :: rest)) = get_road_style (TStr x).
Proof. reflexivity. Qed.

Lemma theme_keys_agree : dom (theme_roads THEME) = dom (theme_road_widths THEME).
Proof.
  apply set_eq. intros k. rewrite !elem_of_dom. unfold THEME. simpl.
  rewrite !lookup_insert. repeat case_decide; subst; simpl;
    rewrite ?lookup_empty; split; intros [? ?]; eauto; discriminate.
Qed.

(** C4. For a name registered in the colour and width mappings,
    [get_road_style] returns the registered pair; for a string registered in
    neither, the pair under [default]. Both mappings have the same keys. *)
Theorem get_road_style_registered :
  (forall name c w,
     theme_roads THEME !! name = Some c ->
     theme_road_widths THEME !! name = Some w ->
     get_road_style (TStr name) = Ok (c, w))
  /\ (forall name dc dw,
        theme_roads THEME !! name = None ->
        theme_road_widths THEME !! name = None ->
        theme_roads THEME !! "default" = Some dc ->
        theme_road_widths THEME !! "default" = Some dw ->
        get_road_style (TStr name) = Ok (dc, dw))
  /\ theme_roads THEME !! "default" = Some "#014f86"
  /\ theme_road_widths THEME !! "default" = Some 0.2%float
  /\ dom (theme_roads THEME) = dom (theme_road_widths THEME).
Proof.
  assert (theme_roads THEME !! "default" = Some "#014f86") as Hc
    by (vm_compute; reflexivity).
  assert (theme_road_widths THEME !! "default" = Some 0.2%float) as Hw
    by (vm_compute; reflexivity).
  split; [|split; [|split; [exact Hc | split; [exact Hw | exact theme_keys_agree]]]].
  - intros name c w H1 H2. rewrite get_road_style_str, H1, H2. reflexivity.
  - intros name dc dw H1 H2 H3 H4. rewrite get_road_style_str, H1, H2. simpl.
    congruence.
Qed.

(** The styles of a registered and of an unregistered name. *)
Lemma get_road_style_registered_witness :
  get_road_style (TStr "trunk") = Ok ("#00c4ec", 2.0%float)
  /\ get_road_style (TStr "track") = Ok ("#014f86", 0.2%float).
Proof.
  split.
  - apply (proj1 get_road_style_registered); vm_compute; reflexivity.
  - apply (proj1 (proj2 get_road_style_registered)); vm_compute; reflexivity.
Defined.

(** C5. A list resolves as its first element does, whatever follows it:
    [motorway, bridge] resolves to motorway, and a string resolves to
    itself. *)
Theorem resolve_tag_first_element :
  (forall x rest, resolve_tag (TList (x :: rest)) = resolve_tag (TStr x))
  /\ (forall x rest, get_road_style (TList (x :: rest)) = get_road_style (TStr x))
  /\ (forall s, resolve_tag (TStr s) = Ok (Some s))
  /\ resolve_tag (TList ["motorway"; "bridge"]) = Ok (Some "motorway")
  /\ resolve_tag (TStr "residential") = Ok (Some "residential")
  /\ get_road_style (TList ["motorway"; "bridge"]) = Ok ("#00d4ff", 2.5%float).
Proof.
  repeat split; reflexivity.
Qed.

(** C6 as stated fails at the empty list: element 0 does not exist. *)
Lemma get_road_style_empty_list : get_road_style (TList []) = Err IndexError.
Proof. reflexivity. Qed.

(** C6, as the code has it. For every string, every missing tag and every
    list with a first element, [get_road_style] returns a pair and does not
    raise; the pair is the [default] one when the resolved name is
    registered in neither mapping. *)
Theorem get_road_style_total (t : tag) :
  t <> TList [] ->
  exists c w,
    get_road_style t = Ok (c, w)
    /\ (forall name,
          resolve_tag t = Ok (Some name) ->
          theme_roads THEME !! name = None ->
          theme_road_widths THEME !! name = None ->
          (c, w) = ("#014f86", 0.2%float))
    /\ (resolve_tag t = Ok None -> (c, w) = ("#014f86", 0.2%float)).
Proof.
  intros Hne. destruct t as [s|[|x rest]|].
  - do 2 eexists. split; [apply get_road_style_str|]. split.
    + intros name [= <-] H1 H2. rewrite H1, H2. reflexivity.
    + discriminate.
  - congruence.
  - do 2 eexists. split; [rewrite get_road_style_cons; apply get_road_style_str|]. split.
    + intros name [= <-] H1 H2. rewrite H1, H2. reflexivity.
    + discriminate.
  - exists "#014f86", 0.2%float. split; [|split].
    + unfold get_road_style, resolve_tag, rbind.
      rewrite subscript_default_color, subscript_default_width. reflexivity.
    + discriminate.
    + reflexivity.
Qed.

(** The total function at a list whose first element is unregistered. *)
Lemma get_road_style_total_witness :
  exists c w, get_road_style (TList ["track"; "motorway"]) = Ok (c, w).
Proof.
  destruct (get_road_style_total (TList ["track"; "motorway"])) as (c & w & H & _).
  - discriminate.
  - exists c, w. exact H.
Defined.

(** ** The calls of a run *)

Section Trace.

Variable b : backend.

Lemma emits_ret (tr : list call) : emits (ret tt) tr [].
Proof.
  exists []. simpl. rewrite app_nil_r. split; [reflexivity|].
  split; [exists []; reflexivity | reflexivity].
Qed.

Lemma emits_issue (c : call) (tr : list call) : emits (issue b c) tr [c].
Proof.
  exists [c]. simpl. split; [reflexivity|].
  split; [exists []; reflexivity | reflexivity].
Qed.

Lemma emits_try_issue (c : call) (tr : list call) :
  emits (try_pass (issue b c)) tr [c].
Proof.
  exists [c]. unfold try_pass, issue. destruct (raises b tr c); simpl;
    (split; [reflexivity|]; split; [exists []; reflexivity | reflexivity]).
Qed.

Lemma emits_seq (m k : M unit) (tr L1 L2 : list call) :
  emits m tr L1 -> emits k (tr ++ L1) L2 ->
  emits (bind m (fun _ => k)) tr (L1 ++ L2).
Proof.
  intros (p1 & Htr & (r1 & Hr1) & Hok) H2. unfold emits, bind.
  destruct (m tr) as [tr' [[]|e]]; simpl in *.
  - specialize (Hok eq_refl). subst p1 tr'.
    destruct H2 as (p2 & Htr2 & (r2 & Hr2) & Hok2).
    exists (L1 ++ p2). rewrite Htr2, app_assoc. split; [reflexivity|]. split.
    + exists r2. rewrite Hr2, app_assoc. reflexivity.
    + intros H. rewrite (Hok2 H). reflexivity.
  - exists p1. split; [exact Htr|]. split.
    + exists (r1 ++ L2). rewrite Hr1, app_assoc. reflexivity.
    + discriminate.
Qed.

Lemma emits_issue_all (cs : list call) (tr : list call) :
  emits (issue_all b cs) tr cs.
Proof.
  revert tr. induction cs as [|c cs IH]; intros tr; simpl.
  - apply emits_ret.
  - apply (emits_seq _ _ tr [c] cs); [apply emits_issue | apply IH].
Qed.

Lemma emits_draw_water (water : option (list area)) (tr : list call) :
  emits (draw_water b water) tr (water_calls water).
Proof.
  unfold draw_water, water_calls. destruct water as [w|]; [|apply emits_ret].
  destruct (0 <? length w)%nat; [apply emits_try_issue | apply emits_ret].
Qed.

Lemma emits_draw_parks (parks : option (list area)) (tr : list call) :
  emits (draw_parks b parks) tr (parks_calls parks).
Proof.
  unfold draw_parks, parks_calls. destruct parks as [p|]; [|apply emits_ret].
  destruct (0 <? length p)%nat; [apply emits_try_issue | apply emits_ret].
Qed.

Lemma emits_road (edges : list edge) (road_type : string) (tr : list call) :
  emits
    (if (0 <? length (subset road_type edges))%nat
     then bind (lift (get_road_style (TStr road_type)))
            (fun '(c, width) =>
               issue b (Plot (Edges (subset road_type edges)) c (Some width) 0.9%float))
     else ret tt)
    tr (road_call edges road_type).
Proof.
  unfold road_call. destruct (0 <? length (subset road_type edges))%nat;
    [|apply emits_ret].
  rewrite get_road_style_str. apply emits_issue.
Qed.

Lemma emits_draw_roads (edges : list edge) (types : list string) (tr : list call) :
  emits (draw_roads b edges types) tr (flat_map (road_call edges) types).
Proof.
  revert tr. induction types as [|road_type rest IH]; intros tr; simpl.
  - apply emits_ret.
  - apply emits_seq; [apply emits_road | apply IH].
Qed.

Lemma emits_draw_remaining (edges : list edge) (tr : list call) :
  emits (draw_remaining b edges) tr (remaining_calls edges).
Proof.
  unfold draw_remaining, remaining_calls.
  destruct (0 <? length (remaining edges))%nat; [|apply emits_ret].
  rewrite subscript_default_color, subscript_default_width. apply emits_issue.
Qed.

Lemma emits_add_labels (show_labels : bool) (city_name state_or_country : string)
    (coords : float * float) (tr : list call) :
  emits (add_labels b show_labels city_name state_or_country coords) tr
    (if show_labels
     then label_calls (get_xlim b tr) (get_ylim b tr) city_name state_or_country coords
     else []).
Proof.
  unfold add_labels. destruct show_labels; [|apply emits_ret].
  apply (emits_issue_all
           (label_calls (get_xlim b tr) (get_ylim b tr) city_name state_or_country coords)).
Qed.

(** The run issues the layers, then the labels and the saving, in this
    order, up to the call that interrupts it. *)
Lemma emits_render_poster (G : graph) (water parks : option (list area))
    (output_path : string) (dpi : Z) (city_name state_or_country : string)
    (coords : float * float) (show_labels : bool) (tr : list call) :
  emits
    (render_poster b G water parks output_path dpi city_name state_or_country coords
       show_labels)
    tr
    (layer_calls G water parks
     ++ closing_calls b (tr ++ layer_calls G water parks) output_path dpi city_name
          state_or_country coords show_labels).
Proof.
  unfold render_poster, layer_calls, closing_calls.
  set (bg := theme_background THEME).
  set (edges := graph_to_gdfs G).
  set (c1 := Subplots (18, 24)%Z bg).
  set (c2 := SetFacecolor bg).
  set (W := water_calls water).
  set (P := parks_calls parks).
  set (R := flat_map (road_call edges) road_order).
  set (Q := remaining_calls edges).
  set (T := Savefig output_path dpi bg "none" "tight" 0.5%float).
  replace (tr ++ [c1; c2; SetAxisOff] ++ W ++ P ++ R ++ Q)
    with (((((((tr ++ [c1]) ++ [c2]) ++ [SetAxisOff]) ++ W) ++ P) ++ R) ++ Q)
    by (rewrite <- !app_assoc; reflexivity).
  replace (([c1; c2; SetAxisOff] ++ W ++ P ++ R ++ Q) ++
           (if show_labels
            then label_calls
                   (get_xlim b (((((((tr ++ [c1]) ++ [c2]) ++ [SetAxisOff]) ++ W) ++ P) ++ R) ++ Q))
                   (get_ylim b (((((((tr ++ [c1]) ++ [c2]) ++ [SetAxisOff]) ++ W) ++ P) ++ R) ++ Q))
                   city_name state_or_country coords
            else []) ++ [TightLayout 1; T; Close])
    with ([c1] ++ [c2] ++ [SetAxisOff] ++ W ++ P ++ R ++ Q ++
          (if show_labels
           then label_calls
                  (get_xlim b (((((((tr ++ [c1]) ++ [c2]) ++ [SetAxisOff]) ++ W) ++ P) ++ R) ++ Q))
                  (get_ylim b (((((((tr ++ [c1]) ++ [c2]) ++ [SetAxisOff]) ++ W) ++ P) ++ R) ++ Q))
                  city_name state_or_country coords
           else []) ++ [TightLayout 1] ++ [T] ++ [Close])
    by (rewrite <- !app_assoc; reflexivity).
  apply emits_seq; [apply emits_issue|].
  apply emits_seq; [apply emits_issue|].
  apply emits_seq; [apply emits_issue|].
  apply emits_seq; [apply emits_draw_water|].
  apply emits_seq; [apply emits_draw_parks|].
  apply emits_seq; [apply emits_draw_roads|].
  apply emits_seq; [apply emits_draw_remaining|].
  apply emits_seq; [apply emits_add_labels|].
  apply emits_seq; [apply emits_issue|].
  apply emits_seq; [apply emits_issue|].
  apply emits_issue.
Qed.

End Trace.

Section Returns.

Variable b : backend.

(** The backend rejects nothing but polygon layers. *)
Hypothesis only_polygons_rejected :
  forall tr c, raises b tr c = true -> is_area_plot c = true.





End Returns.




Section ReturnsRender.

Variable b : backend.

Hypothesis only_polygons_rejected :
  forall tr c, raises b tr c = true -> is_area_plot c = true.





End ReturnsRender.




Lemma closing_calls_no_plot (b : backend) (drawn : list call) (output_path : string)
    (dpi : Z) (city_name state_or_country : string) (coords : float * float)
    (show_labels : bool) (c : call) :
  In c (closing_calls b drawn output_path dpi city_name state_or_country coords show_labels) ->
  is_plot c = false.
Proof.
  unfold closing_calls. destruct show_labels; simpl; intros H;
    repeat (destruct H as [<-|H]; [reflexivity|]); destruct H.
Qed.


(** The whole run of the end-to-end scenario: no water, one park, five
    segments, limits (0,100) and (0,200). *)
Example render_scenario :
  render_poster quiet_backend scenario_graph None (Some [0]) "poster.png" 150
    "Sydney" "Australia" ((-33.8688)%float, 151.2093%float) true []
  = ([ Subplots (18, 24)%Z "#0d1b2a";
       SetFacecolor "#0d1b2a";
       SetAxisOff;
       Plot (Areas [0]) "#1e3a2f" None 0.6%float;
       Plot (Edges [ {| edge_index := 0; highway := TStr "residential" |};
                     {| edge_index := 1; highway := TStr "residential" |} ])
            "#023e8a" (Some 0.3%float) 0.9%float;
       Plot (Edges [ {| edge_index := 2; highway := TStr "primary" |} ])
            "#00b4d8" (Some 1.5%float) 0.9%float;
       Plot (Edges [ {| edge_index := 3; highway := TStr "motorway" |} ])
            "#00d4ff" (Some 2.5%float) 0.9%float;
       Plot (Edges [ {| edge_index := 4; highway := TStr "track" |} ])
            "#014f86" (Some 0.2%float) 0.7%float;
       Text 50%float 12%float "SYDNEY"
            {| fontsize := 72; fontweight := Some "bold"; color := "#e0fbfc";
               ha := "center"; va := "bottom"; fontfamily := "sans-serif";
               text_alpha := None |};
       Text 50%float 6%float "33.8688°S  151.2093°E"
            {| fontsize := 24; fontweight := None; color := "#e0fbfc";
               ha := "center"; va := "bottom"; fontfamily := "sans-serif";
               text_alpha := Some 0.7%float |};
       Text 50%float 194%float "AUSTRALIA"
            {| fontsize := 28; fontweight := None; color := "#e0fbfc";
               ha := "center"; va := "top"; fontfamily := "sans-serif";
               text_alpha := Some 0.6%float |};
       TightLayout 1;
       Savefig "poster.png" 150 "#0d1b2a" "none" "tight" 0.5%float;
       Close ], Ok tt).
Proof. vm_compute. reflexivity. Qed.

(** A road layer the backend rejects is not absorbed: the run stops there. *)
Example render_road_rejected :
  render_poster
    {| raises := fun _ c => is_plot c && negb (is_area_plot c);
       get_xlim := fun _ => (0%float, 100%float);
       get_ylim := fun _ => (0%float, 200%float) |}
    scenario_graph None None "poster.png" 150 "Sydney" "Australia"
    ((-33.8688)%float, 151.2093%float) true []
  = ([ Subplots (18, 24)%Z "#0d1b2a";
       SetFacecolor "#0d1b2a";
       SetAxisOff;
       Plot (Edges [ {| edge_index := 0; highway := TStr "residential" |};
                     {| edge_index := 1; highway := TStr "residential" |} ])
            "#023e8a" (Some 0.3%float) 0.9%float ], Err BackendError).
Proof. vm_compute. reflexivity. Qed.

(** ** Optional layers *)



(** ** Missing tags *)



(** ** Labels *)



(** ** The coordinate text *)

(** The rounding of [format_4f] is to a nearest integer: the error is at
    most one half. *)
Lemma round_half_even_nearest (num den : Z) :
  (0 < den)%Z ->
  (2 * Z.abs (round_half_even num den * den - num) <= den)%Z.
Proof.
  intros Hden. unfold round_half_even.
  pose proof (Z.div_mod num den ltac:(lia)) as Hdm.
  pose proof (Z.mod_pos_bound num den Hden) as Hb.
  destruct (2 * (num mod den) ?= den)%Z eqn:Hc.
  - apply Z.compare_eq in Hc. destruct (Z.even (num / den)); nia.
  - rewrite Z.compare_lt_iff in Hc. nia.
  - rewrite Z.compare_gt_iff in Hc. nia.
Qed.

Lemma fraction4_length (n : Z) : String.length (fraction4 n) = 4.
Proof. reflexivity. Qed.

(** C8. The coordinate text is the absolute latitude to four decimals, the
    degree sign, N when the latitude is at least 0 and S otherwise, two
    spaces, the absolute longitude to four decimals, the degree sign, W when
    the longitude is below 0 and E otherwise. *)
Theorem coord_text_format (lat lon : float) :
  coord_text (lat, lon)
  = (format_4f (abs lat) ++ "°" ++ (if (0 <=? lat)%float then "N" else "S") ++ "  "
     ++ format_4f (abs lon) ++ "°" ++ (if (lon <? 0)%float then "W" else "E"))%string
  /\ coord_text ((-33.8688)%float, 151.2093%float) = "33.8688°S  151.2093°E"%string
  /\ coord_text (40.7128%float, (-74.0060)%float) = "40.7128°N  74.0060°W"%string
  /\ coord_text (0%float, 0%float) = "0.0000°N  0.0000°E"%string
  /\ coord_text ((-0.00001)%float, (-0.00001)%float) = "0.0000°S  0.0000°W"%string
  /\ (forall m e,
        Prim2SF (abs lat) = S754_finite false m e ->
        exists n,
          format_4f (abs lat)
          = (decimal (n / 10000) ++ "." ++ fraction4 (n mod 10000))%string
          /\ String.length (fraction4 (n mod 10000)) = 4
          /\ ((0 <= e)%Z -> n = (Z.pos m * 2 ^ e * 10000)%Z)
          /\ ((e < 0)%Z ->
              (2 * Z.abs (n * 2 ^ (- e) - Z.pos m * 10000) <= 2 ^ (- e))%Z)).
Proof.
  split; [reflexivity|].
  repeat (split; [vm_compute; reflexivity|]).
  intros m e Hsf. unfold format_4f. rewrite Hsf. simpl.
  exists (scaled4 m e). split; [reflexivity|]. split; [reflexivity|].
  unfold scaled4. split.
  - intros He. apply Z.leb_le in He. rewrite He. reflexivity.
  - intros He. apply Z.leb_gt in He. rewrite He.
    apply round_half_even_nearest. apply Z.pow_pos_nonneg; lia.
Qed.

(** The text of Sydney's latitude, from its mantissa and exponent. *)
Lemma coord_text_format_witness :
  exists n,
    format_4f (abs (-33.8688)%float)
    = (decimal (n / 10000) ++ "." ++ fraction4 (n mod 10000))%string
    /\ (2 * Z.abs (n * 2 ^ 47 - 4766609845608933 * 10000) <= 2 ^ 47)%Z.
Proof.
  destruct (proj2 (proj2 (proj2 (proj2 (proj2
              (coord_text_format (-33.8688)%float 0%float)))))
              4766609845608933%positive (-47)%Z) as (n & Hn & _ & _ & Hr).
  - vm_compute. reflexivity.
  - exists n. split; [exact Hn|]. apply Hr. lia.
Defined.

(** * Further properties *)

Example main_paris :
  labels_of {| args_city := "  Paris , France, EU"; args_label := None;
               args_region := Some ""; args_radius := 20; args_output := None;
               args_dpi := 150; args_no_labels := false |}
  = Ok ("Paris"%string, "France"%string)
  /\ output_of {| args_city := "x"; args_label := None; args_region := None;
                  args_radius := 20; args_output := None; args_dpi := 150;
                  args_no_labels := false |} "L'Aquila Est"
     = "laquila_est_poster.png"%string
  /\ split_comma "a,,b," = ["a"; ""; "b"; ""]%string
  /\ strip "    " = ""%string.
Proof. vm_compute. auto. Qed.

(** ** What a run issues *)

Lemma render_trace_prefix (b : backend) (G : graph) (water parks : option (list area))
    (output_path : string) (dpi : Z) (city_name state_or_country : string)
    (coords : float * float) (show_labels : bool) :
  exists rest,
    layer_calls G water parks
    ++ closing_calls b (layer_calls G water parks) output_path dpi city_name
         state_or_country coords show_labels
    = fst (render_poster b G water parks output_path dpi city_name state_or_country
             coords show_labels [])
      ++ rest
    /\ (snd (render_poster b G water parks output_path dpi city_name state_or_country
               coords show_labels []) = Ok tt -> rest = []).
Proof.
  destruct (emits_render_poster b G water parks output_path dpi city_name
              state_or_country coords show_labels []) as (p & Hfst & (rest & HL) & Hok).
  simpl in Hfst, HL. exists rest. rewrite Hfst. split; [exact HL|].
  intros H. specialize (Hok H). simpl in Hok. rewrite <- Hok in HL.
  rewrite <- (app_nil_r p) in HL at 1. apply app_inv_head in HL. congruence.
Qed.

Lemma In_layer_calls (G : graph) (water parks : option (list area)) (c : call) :
  In c (layer_calls G water parks) <->
  c = Subplots (18, 24)%Z "#0d1b2a" \/ c = SetFacecolor "#0d1b2a" \/ c = SetAxisOff
  \/ In c (water_calls water) \/ In c (parks_calls parks)
  \/ (exists t, In t road_order /\ In c (road_call (graph_to_gdfs G) t))
  \/ In c (remaining_calls (graph_to_gdfs G)).
Proof.
  unfold layer_calls. rewrite !in_app_iff, in_flat_map. simpl.
  intuition (subst; auto).
Qed.

Lemma In_water_calls (water : option (list area)) (c : call) :
  In c (water_calls water) ->
  exists w, water = Some w /\ (0 < length w)%nat
            /\ c = Plot (Areas w) (theme_water THEME) None 0.8%float.
Proof.
  unfold water_calls. destruct water as [w|]; [|intros []].
  destruct (0 <? length w)%nat eqn:Hw; [|intros []].
  apply Nat.ltb_lt in Hw. intros [<-|[]]. eauto.
Qed.

Lemma In_parks_calls (parks : option (list area)) (c : call) :
  In c (parks_calls parks) ->
  exists p, parks = Some p /\ (0 < length p)%nat
            /\ c = Plot (Areas p) (theme_parks THEME) None 0.6%float.
Proof.
  unfold parks_calls. destruct parks as [p|]; [|intros []].
  destruct (0 <? length p)%nat eqn:Hp; [|intros []].
  apply Nat.ltb_lt in Hp. intros [<-|[]]. eauto.
Qed.

Lemma In_road_call (edges : list edge) (t : string) (c : call) :
  In c (road_call edges t) ->
  (0 < length (subset t edges))%nat
  /\ c = Plot (Edges (subset t edges))
           (default "#014f86"%string (theme_roads THEME !! t))
           (Some (default 0.2%float (theme_road_widths THEME !! t))) 0.9%float.
Proof.
  unfold road_call. destruct (0 <? length (subset t edges))%nat eqn:Hs; [|intros []].
  apply Nat.ltb_lt in Hs. intros [<-|[]]. auto.
Qed.

Lemma In_remaining_calls (edges : list edge) (c : call) :
  In c (remaining_calls edges) ->
  (0 < length (remaining edges))%nat
  /\ c = Plot (Edges (remaining edges)) "#014f86"%string (Some 0.2%float) 0.7%float.
Proof.
  unfold remaining_calls. destruct (0 <? length (remaining edges))%nat eqn:Hs; [|intros []].
  apply Nat.ltb_lt in Hs. intros [<-|[]]. auto.
Qed.

Lemma layer_calls_kind (G : graph) (water parks : option (list area)) (c : call) :
  In c (layer_calls G water parks) -> is_text c = false /\ is_savefig c = false.
Proof.
  rewrite In_layer_calls.
  intros [->|[->|[->|[H|[H|[(t & _ & H)|H]]]]]]; try (split; reflexivity).
  - apply In_water_calls in H as (w & _ & _ & ->). split; reflexivity.
  - apply In_parks_calls in H as (p & _ & _ & ->). split; reflexivity.
  - apply In_road_call in H as (_ & ->). split; reflexivity.
  - apply In_remaining_calls in H as (_ & ->). split; reflexivity.
Qed.

(** X1. Whatever the backend does, a run plots only frames that are not
    empty; a polygon frame is the water or the park collection it was given,
    and every edge of a road frame is an edge of the graph. *)
Theorem plotted_frames (b : backend) (G : graph) (water parks : option (list area))
    (output_path : string) (dpi : Z) (city_name state_or_country : string)
    (coords : float * float) (show_labels : bool)
    (f : frame) (c : string) (lw : option float) (al : float) :
  In (Plot f c lw al)
     (fst (render_poster b G water parks output_path dpi city_name state_or_country
             coords show_labels [])) ->
  (0 < frame_size f)%nat
  /\ match f with
     | Areas l => water = Some l \/ parks = Some l
     | Edges l => forall e, In e l -> In e (graph_to_gdfs G)
     end.
Proof.
  intros Hin.
  destruct (render_trace_prefix b G water parks output_path dpi city_name
              state_or_country coords show_labels) as (rest & HL & _).
  assert (In (Plot f c lw al)
            (layer_calls G water parks
             ++ closing_calls b (layer_calls G water parks) output_path dpi city_name
                  state_or_country coords show_labels)) as Hplan
    by (rewrite HL; apply in_or_app; left; exact Hin).
  apply in_app_or in Hplan as [Hl|Hc];
    [|apply closing_calls_no_plot in Hc; discriminate].
  apply In_layer_calls in Hl
    as [H|[H|[H|[H|[H|[(t & _ & H)|H]]]]]]; try discriminate.
  - apply In_water_calls in H as (w & -> & Hw & [= -> _ _ _]). simpl. auto.
  - apply In_parks_calls in H as (p & -> & Hp & [= -> _ _ _]). simpl. auto.
  - apply In_road_call in H as (Hs & [= -> _ _ _]). simpl. split; [exact Hs|].
    intros e He. apply In_subset in He. tauto.
  - apply In_remaining_calls in H as (Hs & [= -> _ _ _]). simpl. split; [exact Hs|].
    intros e He. apply In_remaining in He. tauto.
Qed.

(** The park frame of the scenario's run. *)
Lemma plotted_frames_witness :
  (0 < frame_size (Areas [0]))%nat /\ (None = Some [0] \/ Some [0] = Some [0]).
Proof.
  refine (plotted_frames quiet_backend scenario_graph None (Some [0]) "poster.png" 150
            "Sydney" "Australia" ((-33.8688)%float, 151.2093%float) true
            (Areas [0]) "#1e3a2f" None 0.6%float _).
  vm_compute. auto.
Defined.

(** X2. In a run that returns, every edge of the graph is in the frame of
    some road plot call: no road is left undrawn. *)
Theorem every_road_drawn (b : backend) (G : graph) (water parks : option (list area))
    (output_path : string) (dpi : Z) (city_name state_or_country : string)
    (coords : float * float) (show_labels : bool) (e : edge) :
  In e (graph_to_gdfs G) ->
  snd (render_poster b G water parks output_path dpi city_name state_or_country coords
         show_labels []) = Ok tt ->
  exists l c lw al,
    In (Plot (Edges l) c lw al)
       (fst (render_poster b G water parks output_path dpi city_name state_or_country
               coords show_labels []))
    /\ In e l.
Proof.
  intros He Hret.
  destruct (render_trace_prefix b G water parks output_path dpi city_name
              state_or_country coords show_labels) as (rest & HL & Hrest).
  rewrite (Hrest Hret), app_nil_r in HL. rewrite <- HL.
  destruct (mask_remaining (highway e)) eqn:Hr.
  - assert (In e (remaining (graph_to_gdfs G))) as Hin by (apply In_remaining; auto).
    exists (remaining (graph_to_gdfs G)), "#014f86"%string, (Some 0.2%float), 0.7%float.
    split; [|exact Hin]. apply in_or_app. left. apply In_layer_calls.
    do 6 right. unfold remaining_calls.
    destruct (remaining (graph_to_gdfs G)); [destruct Hin | left; reflexivity].
  - rewrite mask_remaining_complement, negb_false_iff in Hr.
    apply existsb_exists in Hr as (t & Ht & Hm).
    assert (In e (subset t (graph_to_gdfs G))) as Hin by (apply In_subset; auto).
    exists (subset t (graph_to_gdfs G)),
      (default "#014f86"%string (theme_roads THEME !! t)),
      (Some (default 0.2%float (theme_road_widths THEME !! t))), 0.9%float.
    split; [|exact Hin]. apply in_or_app. left. apply In_layer_calls.
    do 5 right. left. exists t. split; [exact Ht|]. unfold road_call.
    destruct (subset t (graph_to_gdfs G)); [destruct Hin | left; reflexivity].
Qed.

(** The motorway segment of the scenario is drawn. *)
Lemma every_road_drawn_witness :
  exists l c lw al,
    In (Plot (Edges l) c lw al)
       (fst (render_poster quiet_backend scenario_graph None (Some [0]) "poster.png" 150
               "Sydney" "Australia" ((-33.8688)%float, 151.2093%float) true []))
    /\ In {| edge_index := 3; highway := TStr "motorway" |} l.
Proof.
  apply every_road_drawn.
  - simpl. auto.
  - vm_compute. reflexivity.
Defined.

Lemma road_order_registered (t : string) :
  In t road_order ->
  exists c w, theme_roads THEME !! t = Some c /\ theme_road_widths THEME !! t = Some w.
Proof.
  unfold road_order. simpl. intros H.
  repeat (destruct H as [<-|H]; [do 2 eexists; split; reflexivity|]). destruct H.
Qed.

(** X3. In a run that returns, a road whose tag is the string of one of the
    six categories is in the frame of a plot call that carries the colour and
    width registered under that very category, at opacity 0.9. *)
Theorem named_road_style (b : backend) (G : graph) (water parks : option (list area))
    (output_path : string) (dpi : Z) (city_name state_or_country : string)
    (coords : float * float) (show_labels : bool) (e : edge) (t : string) :
  In e (graph_to_gdfs G) ->
  highway e = TStr t ->
  In t road_order ->
  snd (render_poster b G water parks output_path dpi city_name state_or_country coords
         show_labels []) = Ok tt ->
  exists c w,
    theme_roads THEME !! t = Some c
    /\ theme_road_widths THEME !! t = Some w
    /\ In e (subset t (graph_to_gdfs G))
    /\ In (Plot (Edges (subset t (graph_to_gdfs G))) c (Some w) 0.9%float)
          (fst (render_poster b G water parks output_path dpi city_name state_or_country
                  coords show_labels [])).
Proof.
  intros He Htag Ht Hret.
  destruct (road_order_registered t Ht) as (c & w & Hc & Hw).
  exists c, w. split; [exact Hc|]. split; [exact Hw|].
  assert (In e (subset t (graph_to_gdfs G))) as Hin.
  { apply In_subset. split; [exact He|]. rewrite Htag. apply mask_type_true. reflexivity. }
  split; [exact Hin|].
  destruct (render_trace_prefix b G water parks output_path dpi city_name
              state_or_country coords show_labels) as (rest & HL & Hrest).
  rewrite (Hrest Hret), app_nil_r in HL. rewrite <- HL.
  apply in_or_app. left. apply In_layer_calls. do 5 right. left.
  exists t. split; [exact Ht|]. unfold road_call. rewrite Hc, Hw. simpl.
  destruct (subset t (graph_to_gdfs G)); [destruct Hin | left; reflexivity].
Qed.

(** The primary segment of the scenario, in the primary colour and width. *)
Lemma named_road_style_witness :
  exists c w,
    theme_roads THEME !! "primary" = Some c
    /\ theme_road_widths THEME !! "primary" = Some w
    /\ In {| edge_index := 2; highway := TStr "primary" |}
          (subset "primary" (graph_to_gdfs scenario_graph))
    /\ In (Plot (Edges (subset "primary" (graph_to_gdfs scenario_graph))) c (Some w)
             0.9%float)
          (fst (render_poster quiet_backend scenario_graph None None "poster.png" 150
                  "Sydney" "Australia" ((-33.8688)%float, 151.2093%float) false [])).
Proof.
  apply named_road_style.
  - simpl. auto.
  - reflexivity.
  - simpl. auto.
  - vm_compute. reflexivity.
Defined.

(** A first part of a list that reaches past [X] contains all of [X]. *)
Lemma prefix_past {A} (P : A -> bool) (X Y p r : list A) :
  X ++ Y = p ++ r ->
  (exists c, In c p /\ P c = true) ->
  (forall c, In c X -> P c = false) ->
  exists q, p = X ++ q /\ Y = q ++ r.
Proof.
  revert p. induction X as [|x X IH]; intros p Heq (c & Hc & HP) HX.
  - exists p. auto.
  - destruct p as [|y p]; [destruct Hc|]. simpl in Heq. injection Heq as <- Heq.
    destruct Hc as [<-|Hc].
    + rewrite (HX x (or_introl eq_refl)) in HP. discriminate.
    + destruct (IH p Heq (ex_intro _ c (conj Hc HP))
                  (fun d Hd => HX d (or_intror Hd))) as (q & -> & HY).
      exists q. auto.
Qed.

Lemma filter_all_false {A} (P : A -> bool) (l : list A) :
  (forall c, In c l -> P c = false) -> List.filter P l = [].
Proof.
  induction l as [|a l IH]; simpl; intros H; [reflexivity|].
  rewrite (H a (or_introl eq_refl)). apply IH. auto.
Qed.

(** X4. With labels switched off no text call is issued, whatever the
    backend does. A text or saving call is issued only after all the layer
    calls. A run that returns with labels on has issued exactly the three
    label calls, placed in the limits the backend reports once the last layer
    has been drawn. *)
Theorem labels_follow_layers (b : backend) (G : graph) (water parks : option (list area))
    (output_path : string) (dpi : Z) (city_name state_or_country : string)
    (coords : float * float) (show_labels : bool) :
  (show_labels = false ->
   forall c,
     In c (fst (render_poster b G water parks output_path dpi city_name
                  state_or_country coords show_labels [])) ->
     is_text c = false)
  /\ (forall c,
        In c (fst (render_poster b G water parks output_path dpi city_name
                     state_or_country coords show_labels [])) ->
        is_text c || is_savefig c = true ->
        exists q,
          fst (render_poster b G water parks output_path dpi city_name state_or_country
                 coords show_labels [])
          = layer_calls G water parks ++ q)
  /\ (snd (render_poster b G water parks output_path dpi city_name state_or_country
             coords show_labels []) = Ok tt ->
      List.filter is_text
        (fst (render_poster b G water parks output_path dpi city_name state_or_country
                coords show_labels []))
      = if show_labels
        then label_calls (get_xlim b (layer_calls G water parks))
               (get_ylim b (layer_calls G water parks)) city_name state_or_country coords
        else []).
Proof.
  destruct (render_trace_prefix b G water parks output_path dpi city_name
              state_or_country coords show_labels) as (rest & HL & Hrest).
  split; [|split].
  - intros -> c Hc.
    assert (In c (layer_calls G water parks
                  ++ closing_calls b (layer_calls G water parks) output_path dpi
                       city_name state_or_country coords false)) as Hplan
      by (rewrite HL; apply in_or_app; left; exact Hc).
    apply in_app_or in Hplan as [Hl|Hcl].
    + apply layer_calls_kind in Hl. tauto.
    + unfold closing_calls in Hcl. simpl in Hcl.
      repeat (destruct Hcl as [<-|Hcl]; [reflexivity|]). destruct Hcl.
  - intros c Hc HP.
    destruct (prefix_past (fun c => is_text c || is_savefig c) _ _ _ _ HL
                (ex_intro _ c (conj Hc HP))) as (q & Hq & _).
    + intros d Hd. apply layer_calls_kind in Hd as [-> ->]. reflexivity.
    + exists q. exact Hq.
  - intros Hret. rewrite (Hrest Hret), app_nil_r in HL. rewrite <- HL.
    rewrite List.filter_app.
    rewrite (filter_all_false is_text (layer_calls G water parks))
      by (intros d Hd; apply layer_calls_kind in Hd; tauto).
    unfold closing_calls. destruct show_labels; reflexivity.
Qed.

(** The scenario's run without labels issues no text call. *)
Lemma labels_follow_layers_witness :
  List.filter is_text
    (fst (render_poster quiet_backend scenario_graph None None "poster.png" 150
            "Sydney" "Australia" ((-33.8688)%float, 151.2093%float) false []))
  = [].
Proof.
  refine (proj2 (proj2 (labels_follow_layers quiet_backend scenario_graph None None
                          "poster.png" 150 "Sydney" "Australia"
                          ((-33.8688)%float, 151.2093%float) false)) _).
  vm_compute. reflexivity.
Defined.

(** X5. The poster is saved only once everything has been drawn: when a
    saving call was issued, the calls before it are all the layer calls, the
    labels (when they are on) and the layout call, in this order. A run the
    backend interrupts earlier saves nothing. *)
Theorem saved_after_everything (b : backend) (G : graph)
    (water parks : option (list area)) (output_path : string) (dpi : Z)
    (city_name state_or_country : string) (coords : float * float)
    (show_labels : bool) (c : call) :
  In c (fst (render_poster b G water parks output_path dpi city_name state_or_country
               coords show_labels [])) ->
  is_savefig c = true ->
  exists q,
    fst (render_poster b G water parks output_path dpi city_name state_or_country
           coords show_labels [])
    = layer_calls G water parks
      ++ (if show_labels
          then label_calls (get_xlim b (layer_calls G water parks))
                 (get_ylim b (layer_calls G water parks)) city_name state_or_country
                 coords
          else [])
      ++ [TightLayout 1;
          Savefig output_path dpi (theme_background THEME) "none" "tight" 0.5%float]
      ++ q.
Proof.
  intros Hc HP.
  destruct (render_trace_prefix b G water parks output_path dpi city_name
              state_or_country coords show_labels) as (rest & HL & _).
  set (labels := if show_labels
                 then label_calls (get_xlim b (layer_calls G water parks))
                        (get_ylim b (layer_calls G water parks)) city_name
                        state_or_country coords
                 else []) in *.
  set (S := Savefig output_path dpi (theme_background THEME) "none" "tight" 0.5%float).
  assert ((layer_calls G water parks ++ labels ++ [TightLayout 1]) ++ [S; Close]
          = fst (render_poster b G water parks output_path dpi city_name
                   state_or_country coords show_labels []) ++ rest) as HL'.
  { rewrite <- HL. unfold closing_calls. fold labels. fold S.
    rewrite <- !app_assoc. reflexivity. }
  destruct (prefix_past is_savefig _ _ _ _ HL' (ex_intro _ c (conj Hc HP)))
    as (q & Hq & HY).
  - intros d Hd. rewrite !in_app_iff in Hd. destruct Hd as [Hd|[Hd|Hd]].
    + apply layer_calls_kind in Hd. tauto.
    + unfold labels in Hd. destruct show_labels; simpl in Hd;
        repeat (destruct Hd as [<-|Hd]; [reflexivity|]); destruct Hd.
    + destruct Hd as [<-|[]]. reflexivity.
  - destruct q as [|s q].
    + exfalso. rewrite app_nil_r in Hq. rewrite Hq in Hc.
      rewrite !in_app_iff in Hc. destruct Hc as [Hd|[Hd|Hd]].
      * apply layer_calls_kind in Hd. destruct Hd as [_ Hd]. congruence.
      * unfold labels in Hd. destruct show_labels; simpl in Hd;
          repeat (destruct Hd as [<-|Hd]; [discriminate HP|]); destruct Hd.
      * destruct Hd as [<-|[]]. discriminate HP.
    + simpl in HY. injection HY as <- _. exists q. rewrite Hq.
      rewrite <- !app_assoc. reflexivity.
Qed.

(** The saving call of the scenario's run. *)
Lemma saved_after_everything_witness :
  exists q,
    fst (render_poster quiet_backend scenario_graph None None "poster.png" 150
           "Sydney" "Australia" ((-33.8688)%float, 151.2093%float) false [])
    = layer_calls scenario_graph None None
      ++ []
      ++ [TightLayout 1; Savefig "poster.png" 150 (theme_background THEME) "none" "tight"
                           0.5%float]
      ++ q.
Proof.
  apply (saved_after_everything quiet_backend scenario_graph None None "poster.png" 150
           "Sydney" "Australia" ((-33.8688)%float, 151.2093%float) false
           (Savefig "poster.png" 150 (theme_background THEME) "none" "tight" 0.5%float)).
  - vm_compute. auto 20.
  - reflexivity.
Defined.

(** ** How a run fails *)

Section Faults.

Variable b : backend.








End Faults.



(** ** The theme *)

(** X7. Each of the six categories of [road_order] is registered in both
    mappings of the theme, so no bucket of the loop is drawn in the fallback
    style: its colour differs from the default one, the six colours differ
    from each other, and the widths grow strictly along the drawing order,
    starting above the default width. *)
Theorem road_order_styles :
  (forall t, In t road_order ->
     exists c w,
       theme_roads THEME !! t = Some c
       /\ theme_road_widths THEME !! t = Some w
       /\ get_road_style (TStr t) = Ok (c, w)
       /\ Some c <> theme_roads THEME !! "default")
  /\ NoDup (map (fun t => theme_roads THEME !! t) road_order)
  /\ increasing
       (0.2%float :: map (fun t => default 0%float (theme_road_widths THEME !! t)) road_order)
     = true.
Proof.
  split; [|split].
  - unfold road_order. simpl. intros t H.
    repeat (destruct H as [<-|H];
            [do 2 eexists; split; [reflexivity|]; split; [reflexivity|];
             split; [reflexivity | vm_compute; discriminate]|]).
    destruct H.
  - apply (bool_decide_unpack
             (NoDup (map (fun t => theme_roads THEME !! t) road_order))).
    vm_compute. exact I.
  - vm_compute. reflexivity.
Qed.

(** X8. The colour and the width [get_road_style] returns are always
    registered under one and the same key of the theme: never the colour of
    one category with the width of another or of the fallback. *)
Theorem style_from_one_entry (t : tag) (c : string) (w : float) :
  get_road_style t = Ok (c, w) ->
  exists k, theme_roads THEME !! k = Some c /\ theme_road_widths THEME !! k = Some w.
Proof.
  assert (forall s,
            get_road_style (TStr s) = Ok (c, w) ->
            exists k, theme_roads THEME !! k = Some c
                      /\ theme_road_widths THEME !! k = Some w) as Hstr.
  { intros s. rewrite get_road_style_str.
    pose proof theme_keys_agree as Hdom.
    assert (is_Some (theme_roads THEME !! s) <-> is_Some (theme_road_widths THEME !! s))
      as Hs by (rewrite <- !elem_of_dom, Hdom; reflexivity).
    destruct (theme_roads THEME !! s) as [c'|] eqn:Hc,
             (theme_road_widths THEME !! s) as [w'|] eqn:Hw; simpl.
    - intros [= <- <-]. exists s. auto.
    - destruct (proj1 Hs (ex_intro _ c' eq_refl)) as [? ?]. discriminate.
    - destruct (proj2 Hs (ex_intro _ w' eq_refl)) as [? ?]. discriminate.
    - intros [= <- <-]. exists "default"%string. split; reflexivity. }
  destruct t as [s|[|x rest]|].
  - apply Hstr.
  - discriminate.
  - rewrite get_road_style_cons. apply Hstr.
  - unfold get_road_style, resolve_tag, rbind.
    rewrite subscript_default_color, subscript_default_width. simpl.
    intros [= <- <-]. exists "default"%string. split; reflexivity.
Qed.

(** The style of a list whose first element is the trunk category. *)
Lemma style_from_one_entry_witness :
  exists k,
    theme_roads THEME !! k = Some "#00c4ec"%string
    /\ theme_road_widths THEME !! k = Some 2.0%float.
Proof.
  apply (style_from_one_entry (TList ["trunk"; "bridge"]%string)).
  vm_compute. reflexivity.
Defined.

(** ** The coordinate text carries no sign *)

Local Open Scope string_scope.

Lemma has_char_app (c : ascii) (s t : string) :
  has_char c (s ++ t) = has_char c s || has_char c t.
Proof.
  induction s as [|d s IH]; simpl; [reflexivity|].
  rewrite IH. apply orb_assoc.
Qed.

Lemma has_minus_uint (d : Decimal.uint) :
  has_char "-" (NilEmpty.string_of_uint d) = false.
Proof. induction d; simpl; auto. Qed.

Lemma has_minus_decimal (n : Z) : has_char "-" (decimal n) = false.
Proof.
  unfold decimal, NilZero.string_of_uint.
  destruct (N.to_uint (Z.to_N n)) eqn:Hd; try reflexivity;
    rewrite <- Hd; apply has_minus_uint.
Qed.

Lemma has_minus_digit (n : Z) : has_char "-" (digit (n mod 10)) = false.
Proof.
  pose proof (Z.mod_pos_bound n 10 ltac:(lia)) as Hb.
  assert (n mod 10 = 0 \/ n mod 10 = 1 \/ n mod 10 = 2 \/ n mod 10 = 3 \/ n mod 10 = 4
          \/ n mod 10 = 5 \/ n mod 10 = 6 \/ n mod 10 = 7 \/ n mod 10 = 8
          \/ n mod 10 = 9)%Z as H by lia.
  repeat (destruct H as [->|H]; [reflexivity|]). rewrite H. reflexivity.
Qed.

Lemma has_minus_fraction4 (n : Z) : has_char "-" (fraction4 n) = false.
Proof.
  unfold fraction4. rewrite !has_char_app, !has_minus_digit. reflexivity.
Qed.

Lemma has_minus_format_abs (x : float) : has_char "-" (format_4f (abs x)) = false.
Proof.
  unfold format_4f. rewrite abs_spec.
  destruct (Prim2SF x) as [s|s| |s m e]; try reflexivity.
  cbn [SFabs]. cbv zeta.
  change (has_char "-"
            ("" ++ decimal (scaled4 m e / 10000) ++ "."
             ++ fraction4 (scaled4 m e mod 10000)) = false).
  rewrite !has_char_app, has_minus_decimal, has_minus_fraction4. reflexivity.
Qed.

(** X9. The coordinate text never contains a minus sign, for any pair of
    doubles (infinities and NaN too): the sign is carried by the hemisphere
    letter alone. *)
Theorem coord_text_unsigned (coords : float * float) :
  has_char "-" (coord_text coords) = false.
Proof.
  unfold coord_text. cbv zeta.
  rewrite !has_char_app, !has_minus_format_abs.
  destruct (0 <=? fst coords)%float, (snd coords <? 0)%float; reflexivity.
Qed.

(** ** The labels and the file name [main] derives *)

Lemma split_comma_cons (s : string) : exists p ps, split_comma s = p :: ps.
Proof.
  destruct s as [|c r]; simpl; [eauto|].
  destruct (Ascii.eqb c ","); [eauto|]. destruct (split_comma r); eauto.
Qed.










Local Open Scope list_scope.

(** The two labels are always found: [parts] has an element 0, and
    element 1 is read under its guard only. *)
Lemma labels_of_parts (a : args) :
  exists p ps,
    map strip (split_comma (args_city a)) = p :: ps
    /\ labels_of a
       = Ok (match truthy (args_label a) with Some l => l | None => p end,
             match truthy (args_region a) with
             | Some r => r
             | None => match ps with q :: _ => q | [] => ""%string end
             end).
Proof.
  destruct (split_comma_cons (args_city a)) as (p & ps & Hs).
  exists (strip p), (map strip ps). unfold labels_of. rewrite Hs. simpl.
  split; [reflexivity|].
  destruct (truthy (args_label a)), (truthy (args_region a)); simpl;
    try reflexivity; destruct ps; reflexivity.
Qed.


Local Open Scope string_scope.







Local Open Scope list_scope.

(** ** [main] *)

Lemma fetch_map_data_roads (p : provider) (center : float * float) (radius_km : Z) :
  match graph_from_point p center (radius_km * 1000) "all" with
  | Ok G => exists water parks, fetch_map_data p center radius_km = Ok (G, water, parks)
  | Err e => fetch_map_data p center radius_km = Err e
  end.
Proof.
  unfold fetch_map_data.
  destruct (graph_from_point p center (radius_km * 1000) "all"); simpl; eauto.
Qed.


(** X12. The fatal conditions of [main]. When the geocoder raises, [main]
    raises a [ValueError] that names the place; when the road network request
    raises, [main] raises that exception; in both cases no call has been
    issued to the backend. So a run that issued any call had found the place
    and its road network. *)
Theorem main_fatal (geocode : string -> result (float * float)) (p : provider)
    (b : backend) (a : args) :
  (forall e,
     geocode (args_city a) = Err e ->
     main geocode p b a
     = ([], Raised (ValueError ("Could not find location: " ++ args_city a)%string)))
  /\ (forall coords e,
        geocode (args_city a) = Ok coords ->
        graph_from_point p coords (args_radius a * 1000) "all" = Err e ->
        main geocode p b a = ([], Raised (Uncaught e)))
  /\ (forall c,
        In c (fst (main geocode p b a)) ->
        exists coords G,
          geocode (args_city a) = Ok coords
          /\ graph_from_point p coords (args_radius a * 1000) "all" = Ok G).
Proof.
  destruct (labels_of_parts a) as (q & qs & _ & Hl).
  unfold main, geocode_city. rewrite Hl. split; [|split].
  - intros e ->. reflexivity.
  - intros coords e -> Hg.
    pose proof (fetch_map_data_roads p coords (args_radius a)) as Hf.
    rewrite Hg in Hf. rewrite Hf. reflexivity.
  - intros c. destruct (geocode (args_city a)) as [coords|e]; [|intros []].
    pose proof (fetch_map_data_roads p coords (args_radius a)) as Hf.
    destruct (graph_from_point p coords (args_radius a * 1000) "all") as [G|e] eqn:Hg.
    + intros _. exists coords, G. split; [reflexivity | exact Hg].
    + rewrite Hf. intros [].
Qed.



Example main_sydney :
  main sydney_geocode (roads_only_provider scenario_graph) quiet_backend sydney_args
  = (fst (render_poster quiet_backend scenario_graph None None "sydney_poster.png" 150
            "Sydney" "Australia" ((-33.8688)%float, 151.2093%float) true []),
     Done)
  /\ main sydney_geocode (roads_only_provider scenario_graph) quiet_backend
       {| args_city := "Atlantis"; args_label := None; args_region := None;
          args_radius := 20; args_output := None; args_dpi := 150;
          args_no_labels := false |}
     = ([], Raised (ValueError "Could not find location: Atlantis")).
Proof. vm_compute. auto. Qed.



(** A place the geocoder does not know. *)
Lemma main_fatal_witness :
  main sydney_geocode (roads_only_provider scenario_graph) quiet_backend
    {| args_city := "Atlantis"; args_label := None; args_region := None;
       args_radius := 20; args_output := None; args_dpi := 150;
       args_no_labels := false |}
  = ([], Raised (ValueError "Could not find location: Atlantis")).
Proof.
  apply (proj1 (main_fatal sydney_geocode (roads_only_provider scenario_graph)
                  quiet_backend
                  {| args_city := "Atlantis"; args_label := None; args_region := None;
                     args_radius := 20; args_output := None; args_dpi := 150;
                     args_no_labels := false |}) ProviderError).
  reflexivity.
Defined.
